(** * Bolo: a shallow embedding of the recording console and clipboard delivery

    Sources: [src/components/Console.tsx] (two versions of the [Console]
    component: the hands-free one with [initAudio], [startRecorderSession],
    [updateLoop] and [mediaRecorder.onstop], and the earlier one with
    [startRecording] and its audio processing graph), [src/types.ts],
    [src/services/boloService.ts], the hands-free [App] of
    [src/unnamed/part_000] ([secureCopy] and the record handlers) and the
    [Editor] of [src/unnamed/part_001].

    React state and refs are fields of one record; every handler is a function
    on that record.  A closure created during a render sees the React state of
    that render: it is modelled by an explicit environment [Env] that the
    handler receives and that the loops and the recorder's [onstop] keep. *)

From Stdlib Require Import String Ascii List ZArith Bool Lia.
From Stdlib Require Import DecimalString DecimalPos DecimalZ QArith.
Import ListNotations.
Open Scope string_scope.
Open Scope Z_scope.

(* ------------------------------------------------------------------ *)
(** ** types.ts *)

Inductive SupportedLanguage := AUTO | ENGLISH | HINDI | NEPALI.

Record AppSettings := mkSettings {
  language : SupportedLanguage;
  handsFreeMode : bool
}.

Record TranscriptionRecord := mkRecord {
  id : string;
  originalText : string;
  translatedText : option string;   (* [translatedText?: string] *)
  detectedLanguage : string;
  timestamp : Z
}.

(** [BoloResponse] of boloService.ts, as parsed from the JSON reply: a field
    the model left out is [undefined], hence the options. *)
Record BoloResponse := mkResponse {
  text : option string;
  resp_detectedLanguage : string;
  englishTranslation : option string
}.

(** Outcome of [await processAudio(audioBlob, settings)]: it resolves with a
    response or rejects (boloService.ts rethrows every failure). *)
Inductive ServiceResult :=
| Resolved (r : BoloResponse)
| Rejected.

(** A [Blob] is its bytes. *)
Definition Blob := list Z.

(* ------------------------------------------------------------------ *)
(** ** Constants of Console.tsx *)

Definition SILENCE_THRESHOLD_MS : Z := 4000.
Definition SPEECH_THRESHOLD_VOLUME : Z := 8.
Definition INITIAL_SILENCE_TIMEOUT_MS : Z := 10000.
(** Delay of the [setTimeout] that restarts a hands-free session. *)
Definition RESTART_DELAY_MS : Z := 100.

(* ------------------------------------------------------------------ *)
(** ** String.prototype.trim and Number.prototype.toString *)

(** Strings are sequences of code units below 256.  Among those, JavaScript's
    [trim] removes TAB, LF, VT, FF, CR, SPACE and NO-BREAK SPACE. *)
Definition is_js_whitespace (c : ascii) : bool :=
  match nat_of_ascii c with
  | 9 | 10 | 11 | 12 | 13 | 32 | 160 => true
  | _ => false
  end%nat.

Fixpoint drop_ws (l : list ascii) : list ascii :=
  match l with
  | [] => []
  | c :: l' => if is_js_whitespace c then drop_ws l' else l
  end.

Definition trim (s : string) : string :=
  string_of_list_ascii
    (rev (drop_ws (rev (drop_ws (list_ascii_of_string s))))).

(** [Date.now().toString()]: the decimal digits of an integer. *)
Definition number_toString (z : Z) : string :=
  NilZero.string_of_int (Z.to_int z).

Definition SILENCE_TOKEN : string := "SILENCE".

(* ------------------------------------------------------------------ *)
(** ** Component state *)

Inductive RecorderState := Inactive | Recording.

(** The environment of a closure: the [isRecording] state of the render that
    created it and the [settings] prop of that render. *)
Record Env := mkEnv {
  env_isRecording : bool;
  env_settings : AppSettings
}.

Record St := mkSt {
  (* refs *)
  streamActive : bool;                (* streamRef.current?.active *)
  recorder : option RecorderState;    (* mediaRecorderRef.current and its state *)
  analyserReady : bool;               (* analyserRef.current <> null *)
  onstopEnv : option Env;             (* environment of mediaRecorder.onstop *)
  manualStop : bool;                  (* manualStopRef *)
  lastSpeechTimestamp : Z;            (* lastSpeechTimestampRef *)
  hasSpokenSinceStart : bool;         (* hasSpokenSinceStartRef *)
  startTime : Z;                      (* startTimeRef *)
  chunks : list Blob;                 (* chunksRef *)
  animationFrameSet : bool;           (* animationFrameRef.current is an id *)
  (* React state *)
  isRecording : bool;
  isProcessing : bool;
  errorMsg : option string;
  statusMessage : string;
  (* effects observed outside the component *)
  loops : list Env;                   (* running updateLoop chains *)
  stopPending : bool;                 (* recorder stopped, onstop not yet run *)
  awaiting : option Blob;             (* onstop suspended at await processAudio *)
  restartTimer : bool;                (* setTimeout(startRecorderSession, 100) *)
  serviceCalls : list Blob;           (* blobs passed to processAudio, newest first *)
  emitted : list TranscriptionRecord  (* onTranscriptionComplete, newest first *)
}.

Definition initial : St :=
  mkSt false None false None false 0 false 0 [] false
       false false None EmptyString [] false None false [] [].

(** Field updates ([ref.current = v] and [setX(v)]). *)

Definition set_streamActive (v : bool) (st : St) : St :=
  mkSt v (recorder st) (analyserReady st) (onstopEnv st) (manualStop st) (lastSpeechTimestamp st) (hasSpokenSinceStart st) (startTime st) (chunks st) (animationFrameSet st) (isRecording st) (isProcessing st) (errorMsg st) (statusMessage st) (loops st) (stopPending st) (awaiting st) (restartTimer st) (serviceCalls st) (emitted st).

Definition set_recorder (v : option RecorderState) (st : St) : St :=
  mkSt (streamActive st) v (analyserReady st) (onstopEnv st) (manualStop st) (lastSpeechTimestamp st) (hasSpokenSinceStart st) (startTime st) (chunks st) (animationFrameSet st) (isRecording st) (isProcessing st) (errorMsg st) (statusMessage st) (loops st) (stopPending st) (awaiting st) (restartTimer st) (serviceCalls st) (emitted st).

Definition set_analyserReady (v : bool) (st : St) : St :=
  mkSt (streamActive st) (recorder st) v (onstopEnv st) (manualStop st) (lastSpeechTimestamp st) (hasSpokenSinceStart st) (startTime st) (chunks st) (animationFrameSet st) (isRecording st) (isProcessing st) (errorMsg st) (statusMessage st) (loops st) (stopPending st) (awaiting st) (restartTimer st) (serviceCalls st) (emitted st).

Definition set_onstopEnv (v : option Env) (st : St) : St :=
  mkSt (streamActive st) (recorder st) (analyserReady st) v (manualStop st) (lastSpeechTimestamp st) (hasSpokenSinceStart st) (startTime st) (chunks st) (animationFrameSet st) (isRecording st) (isProcessing st) (errorMsg st) (statusMessage st) (loops st) (stopPending st) (awaiting st) (restartTimer st) (serviceCalls st) (emitted st).

Definition set_manualStop (v : bool) (st : St) : St :=
  mkSt (streamActive st) (recorder st) (analyserReady st) (onstopEnv st) v (lastSpeechTimestamp st) (hasSpokenSinceStart st) (startTime st) (chunks st) (animationFrameSet st) (isRecording st) (isProcessing st) (errorMsg st) (statusMessage st) (loops st) (stopPending st) (awaiting st) (restartTimer st) (serviceCalls st) (emitted st).

Definition set_lastSpeechTimestamp (v : Z) (st : St) : St :=
  mkSt (streamActive st) (recorder st) (analyserReady st) (onstopEnv st) (manualStop st) v (hasSpokenSinceStart st) (startTime st) (chunks st) (animationFrameSet st) (isRecording st) (isProcessing st) (errorMsg st) (statusMessage st) (loops st) (stopPending st) (awaiting st) (restartTimer st) (serviceCalls st) (emitted st).

Definition set_hasSpokenSinceStart (v : bool) (st : St) : St :=
  mkSt (streamActive st) (recorder st) (analyserReady st) (onstopEnv st) (manualStop st) (lastSpeechTimestamp st) v (startTime st) (chunks st) (animationFrameSet st) (isRecording st) (isProcessing st) (errorMsg st) (statusMessage st) (loops st) (stopPending st) (awaiting st) (restartTimer st) (serviceCalls st) (emitted st).

Definition set_startTime (v : Z) (st : St) : St :=
  mkSt (streamActive st) (recorder st) (analyserReady st) (onstopEnv st) (manualStop st) (lastSpeechTimestamp st) (hasSpokenSinceStart st) v (chunks st) (animationFrameSet st) (isRecording st) (isProcessing st) (errorMsg st) (statusMessage st) (loops st) (stopPending st) (awaiting st) (restartTimer st) (serviceCalls st) (emitted st).

Definition set_chunks (v : list Blob) (st : St) : St :=
  mkSt (streamActive st) (recorder st) (analyserReady st) (onstopEnv st) (manualStop st) (lastSpeechTimestamp st) (hasSpokenSinceStart st) (startTime st) v (animationFrameSet st) (isRecording st) (isProcessing st) (errorMsg st) (statusMessage st) (loops st) (stopPending st) (awaiting st) (restartTimer st) (serviceCalls st) (emitted st).

Definition set_animationFrameSet (v : bool) (st : St) : St :=
  mkSt (streamActive st) (recorder st) (analyserReady st) (onstopEnv st) (manualStop st) (lastSpeechTimestamp st) (hasSpokenSinceStart st) (startTime st) (chunks st) v (isRecording st) (isProcessing st) (errorMsg st) (statusMessage st) (loops st) (stopPending st) (awaiting st) (restartTimer st) (serviceCalls st) (emitted st).

Definition set_isRecording (v : bool) (st : St) : St :=
  mkSt (streamActive st) (recorder st) (analyserReady st) (onstopEnv st) (manualStop st) (lastSpeechTimestamp st) (hasSpokenSinceStart st) (startTime st) (chunks st) (animationFrameSet st) v (isProcessing st) (errorMsg st) (statusMessage st) (loops st) (stopPending st) (awaiting st) (restartTimer st) (serviceCalls st) (emitted st).

Definition set_isProcessing (v : bool) (st : St) : St :=
  mkSt (streamActive st) (recorder st) (analyserReady st) (onstopEnv st) (manualStop st) (lastSpeechTimestamp st) (hasSpokenSinceStart st) (startTime st) (chunks st) (animationFrameSet st) (isRecording st) v (errorMsg st) (statusMessage st) (loops st) (stopPending st) (awaiting st) (restartTimer st) (serviceCalls st) (emitted st).

Definition set_errorMsg (v : option string) (st : St) : St :=
  mkSt (streamActive st) (recorder st) (analyserReady st) (onstopEnv st) (manualStop st) (lastSpeechTimestamp st) (hasSpokenSinceStart st) (startTime st) (chunks st) (animationFrameSet st) (isRecording st) (isProcessing st) v (statusMessage st) (loops st) (stopPending st) (awaiting st) (restartTimer st) (serviceCalls st) (emitted st).

Definition set_statusMessage (v : string) (st : St) : St :=
  mkSt (streamActive st) (recorder st) (analyserReady st) (onstopEnv st) (manualStop st) (lastSpeechTimestamp st) (hasSpokenSinceStart st) (startTime st) (chunks st) (animationFrameSet st) (isRecording st) (isProcessing st) (errorMsg st) v (loops st) (stopPending st) (awaiting st) (restartTimer st) (serviceCalls st) (emitted st).

Definition set_loops (v : list Env) (st : St) : St :=
  mkSt (streamActive st) (recorder st) (analyserReady st) (onstopEnv st) (manualStop st) (lastSpeechTimestamp st) (hasSpokenSinceStart st) (startTime st) (chunks st) (animationFrameSet st) (isRecording st) (isProcessing st) (errorMsg st) (statusMessage st) v (stopPending st) (awaiting st) (restartTimer st) (serviceCalls st) (emitted st).

Definition set_stopPending (v : bool) (st : St) : St :=
  mkSt (streamActive st) (recorder st) (analyserReady st) (onstopEnv st) (manualStop st) (lastSpeechTimestamp st) (hasSpokenSinceStart st) (startTime st) (chunks st) (animationFrameSet st) (isRecording st) (isProcessing st) (errorMsg st) (statusMessage st) (loops st) v (awaiting st) (restartTimer st) (serviceCalls st) (emitted st).

Definition set_awaiting (v : option Blob) (st : St) : St :=
  mkSt (streamActive st) (recorder st) (analyserReady st) (onstopEnv st) (manualStop st) (lastSpeechTimestamp st) (hasSpokenSinceStart st) (startTime st) (chunks st) (animationFrameSet st) (isRecording st) (isProcessing st) (errorMsg st) (statusMessage st) (loops st) (stopPending st) v (restartTimer st) (serviceCalls st) (emitted st).

Definition set_restartTimer (v : bool) (st : St) : St :=
  mkSt (streamActive st) (recorder st) (analyserReady st) (onstopEnv st) (manualStop st) (lastSpeechTimestamp st) (hasSpokenSinceStart st) (startTime st) (chunks st) (animationFrameSet st) (isRecording st) (isProcessing st) (errorMsg st) (statusMessage st) (loops st) (stopPending st) (awaiting st) v (serviceCalls st) (emitted st).

Definition set_serviceCalls (v : list Blob) (st : St) : St :=
  mkSt (streamActive st) (recorder st) (analyserReady st) (onstopEnv st) (manualStop st) (lastSpeechTimestamp st) (hasSpokenSinceStart st) (startTime st) (chunks st) (animationFrameSet st) (isRecording st) (isProcessing st) (errorMsg st) (statusMessage st) (loops st) (stopPending st) (awaiting st) (restartTimer st) v (emitted st).

Definition set_emitted (v : list TranscriptionRecord) (st : St) : St :=
  mkSt (streamActive st) (recorder st) (analyserReady st) (onstopEnv st) (manualStop st) (lastSpeechTimestamp st) (hasSpokenSinceStart st) (startTime st) (chunks st) (animationFrameSet st) (isRecording st) (isProcessing st) (errorMsg st) (statusMessage st) (loops st) (stopPending st) (awaiting st) (restartTimer st) (serviceCalls st) v.

(* ------------------------------------------------------------------ *)
(** ** Hands-free Console: recorder session control *)

(** [stopRecorderSession]: [stop()] only a recording recorder; the browser
    then fires [onstop] later ([stopPending]). *)
Definition stopRecorderSession (st : St) : St :=
  match recorder st with
  | Some Recording => set_stopPending true (set_recorder (Some Inactive) st)
  | _ => st
  end.

(** A call [updateLoop()] from a closure of environment [env] starts a chain
    of animation frames running that closure (it returns at once when the
    analyser is missing).  Each frame of the chain is a [Frame] event below. *)
Definition start_loop (env : Env) (st : St) : St :=
  if analyserReady st
  then set_animationFrameSet true (set_loops (loops st ++ [env]) st)
  else st.

(** [startRecorderSession]: reset the VAD statistics, then start an inactive
    recorder. *)
Definition startRecorderSession (env : Env) (now : Z) (st : St) : St :=
  match recorder st with
  | None => st
  | Some rs =>
      let st1 := set_chunks []
                   (set_manualStop false
                     (set_startTime now
                       (set_lastSpeechTimestamp now
                         (set_hasSpokenSinceStart false st)))) in
      match rs with
      | Inactive =>
          let st2 := set_statusMessage
                       (if handsFreeMode (env_settings env)
                        then "Listening (Hands-Free)..." else "Listening...")
                       (set_isRecording true (set_recorder (Some Recording) st1)) in
          if animationFrameSet st2 then st2 else start_loop env st2
      | Recording => st1
      end
  end.

(** [initAudio]: the microphone is acquired once; the recorder and its
    [onstop] closure (environment [env]) are created with it.  [micGranted]
    is the outcome of [getUserMedia]. *)
Definition initAudio (env : Env) (micGranted : bool) (st : St) : St * bool :=
  if streamActive st then (st, true)
  else if micGranted then
    (set_onstopEnv (Some env)
      (set_recorder (Some Inactive)
        (set_analyserReady true (set_streamActive true st))), true)
  else (set_errorMsg (Some "Microphone access failed.") st, false).

(** [handleToggleRecord], run by the closure of the render whose state is
    [env]. *)
Definition handleToggleRecord (env : Env) (micGranted : bool) (now : Z)
    (st : St) : St :=
  let st0 := set_errorMsg None st in
  if env_isRecording env then
    stopRecorderSession (set_manualStop true st0)
  else
    let '(st1, success) := initAudio env micGranted st0 in
    if success then
      start_loop env (startRecorderSession env now (set_manualStop false st1))
    else st1.

(* ------------------------------------------------------------------ *)
(** ** Hands-free Console: the VAD loop *)

Definition sum_bytes (data : list Z) : Z := fold_left Z.add data 0.

(** [avgVol > SPEECH_THRESHOLD_VOLUME] with [avgVol = sum / data.length]:
    for a non-empty array this is [sum > 8 * length]; for an empty one
    [avgVol] is NaN and both sides are false. *)
Definition is_speech (data : list Z) : bool :=
  Z.of_nat (length data) * SPEECH_THRESHOLD_VOLUME <? sum_bytes data.

(** One run of [updateLoop] with frequency data [data] at time [now]; the
    boolean says whether it requested the next animation frame. *)
Definition updateLoop (env : Env) (data : list Z) (now : Z) (st : St)
    : St * bool :=
  if negb (analyserReady st) then (st, false) else
  let st1 :=
    if is_speech data then
      let st' := set_lastSpeechTimestamp now st in
      let st'' := if hasSpokenSinceStart st' then st'
                  else set_hasSpokenSinceStart true st' in
      set_statusMessage "Speech Detected..." st''
    else st in
  if env_isRecording env && handsFreeMode (env_settings env) then
    if hasSpokenSinceStart st1 then
      if now - lastSpeechTimestamp st1 >? SILENCE_THRESHOLD_MS
      then (stopRecorderSession (set_statusMessage "Processing..." st1), false)
      else (set_animationFrameSet true st1, true)
    else
      if now - startTime st1 >? INITIAL_SILENCE_TIMEOUT_MS
      then (stopRecorderSession
              (set_manualStop true
                (set_statusMessage "No speech detected. Stopping." st1)), false)
      else (set_animationFrameSet true st1, true)
  else (set_animationFrameSet true st1, true).

(* ------------------------------------------------------------------ *)
(** ** Hands-free Console: [mediaRecorder.onstop] *)

(** Up to [await processAudio]: the blob of all chunks, and whether it is
    sent ([Some blob]). *)
Definition onstop_begin (env : Env) (st : St) : St * option Blob :=
  let st1 := set_statusMessage "Processing..."
               (set_isProcessing true (set_stopPending false st)) in
  let audioBlob := concat (chunks st1) in
  let st2 := set_chunks [] st1 in
  let shouldProcess :=
    if handsFreeMode (env_settings env) then hasSpokenSinceStart st2 else true in
  if shouldProcess && (0 <? length audioBlob)%nat
  then (set_serviceCalls (audioBlob :: serviceCalls st2) st2, Some audioBlob)
  else (st2, None).

(** [result.text ? result.text.trim() : ""] *)
Definition cleaned_text (r : BoloResponse) : string :=
  match text r with Some t => trim t | None => EmptyString end.

(** [cleanedText.length > 0 && cleanedText !== "SILENCE"] *)
Definition passes_filter (cleanedText : string) : bool :=
  (0 <? String.length cleanedText)%nat && negb (String.eqb cleanedText SILENCE_TOKEN).

(** The try/catch around the service result; [nowId] and [nowTs] are the two
    readings of [Date.now()]. *)
Definition handle_result (env : Env) (res : ServiceResult) (nowId nowTs : Z)
    (st : St) : St :=
  match res with
  | Resolved r =>
      let cleanedText := cleaned_text r in
      if passes_filter cleanedText
      then
        let newRecord := mkRecord (number_toString nowId) cleanedText
                           (englishTranslation r) (resp_detectedLanguage r) nowTs in
        set_emitted (newRecord :: emitted st) st
      else st
  | Rejected =>
      if negb (handsFreeMode (env_settings env))
      then set_errorMsg (Some "Could not process audio.") st
      else st
  end.

(** After the processing: the restart decision. *)
Definition onstop_end (env : Env) (st : St) : St :=
  let st1 := set_statusMessage EmptyString (set_isProcessing false st) in
  if handsFreeMode (env_settings env) && negb (manualStop st1)
  then set_restartTimer true st1
  else set_isRecording false st1.

(** The whole handler, when nothing else runs during the [await]. *)
Definition onstop (env : Env) (res : ServiceResult) (nowId nowTs : Z) (st : St)
    : St :=
  let '(st1, sent) := onstop_begin env st in
  match sent with
  | Some _ => onstop_end env (handle_result env res nowId nowTs st1)
  | None => onstop_end env st1
  end.

(* ------------------------------------------------------------------ *)
(** ** Hands-free Console: events *)

Fixpoint remove_nth {A} (i : nat) (l : list A) : list A :=
  match i, l with
  | _, [] => []
  | O, _ :: l' => l'
  | S i', x :: l' => x :: remove_nth i' l'
  end.

(** What the browser and the user can do.  A click is handled by the closure
    of the latest render, whose [isRecording] is the current React state; the
    button is [disabled={isProcessing}]. *)
Inductive Event :=
| ClickToggle (micGranted : bool) (now : Z)
| Frame (i : nat) (data : list Z) (now : Z)   (* next frame of loop [i] *)
| DataAvailable (b : Blob)                     (* mediaRecorder.ondataavailable *)
| RecorderOnStop                               (* the browser runs onstop *)
| ServiceSettles (res : ServiceResult) (nowId nowTs : Z)
| RestartTimerFires (now : Z).

Definition step (props : AppSettings) (ev : Event) (st : St) : St :=
  match ev with
  | ClickToggle g now =>
      if isProcessing st then st
      else handleToggleRecord (mkEnv (isRecording st) props) g now st
  | Frame i data now =>
      match nth_error (loops st) i with
      | Some env =>
          let '(st1, continues) := updateLoop env data now st in
          if continues then st1 else set_loops (remove_nth i (loops st1)) st1
      | None => st
      end
  | DataAvailable b =>
      if (0 <? length b)%nat then set_chunks (chunks st ++ [b]) st else st
  | RecorderOnStop =>
      match stopPending st, onstopEnv st with
      | true, Some env =>
          let '(st1, sent) := onstop_begin env st in
          match sent with
          | Some b => set_awaiting (Some b) st1
          | None => onstop_end env st1
          end
      | _, _ => st
      end
  | ServiceSettles res nowId nowTs =>
      match awaiting st, onstopEnv st with
      | Some _, Some env =>
          onstop_end env (handle_result env res nowId nowTs (set_awaiting None st))
      | _, _ => st
      end
  | RestartTimerFires now =>
      match restartTimer st, onstopEnv st with
      | true, Some env => startRecorderSession env now (set_restartTimer false st)
      | _, _ => st
      end
  end.

Fixpoint run (props : AppSettings) (evs : list Event) (st : St) : St :=
  match evs with
  | [] => st
  | ev :: evs' => run props evs' (step props ev st)
  end.

Inductive reachable (props : AppSettings) : St -> Prop :=
| reach_initial : reachable props initial
| reach_step ev st : reachable props st -> reachable props (step props ev st).

(* ------------------------------------------------------------------ *)
(** ** The audio graphs of the two Console versions *)

Module AudioGraph.

(** Nodes with the parameters the code sets (compressor attack and release
    in milliseconds). *)
Inductive Node :=
| MicSource
| HighPass (frequency : Z)
| Compressor (threshold knee ratio attack_ms release_ms : Z)
| Analyser (fftSize : Z)
| StreamDestination.

Definition node_eqb (a b : Node) : bool :=
  match a, b with
  | MicSource, MicSource | StreamDestination, StreamDestination => true
  | HighPass f, HighPass f' => f =? f'
  | Compressor t k r a l, Compressor t' k' r' a' l' =>
      (t =? t') && (k =? k') && (r =? r') && (a =? a') && (l =? l')
  | Analyser n, Analyser n' => n =? n'
  | _, _ => false
  end.

(** The stream given to [new MediaRecorder(...)]. *)
Inductive RecorderInput := RawMicStream | DestinationStream.

Record Graph := mkGraph {
  connections : list (Node * Node);   (* [a.connect(b)], in call order *)
  recorderInput : RecorderInput
}.

(** [initAudio] (hands-free version): [source.connect(analyser)] and
    [new MediaRecorder(stream)]. *)
Definition initAudio_graph : Graph :=
  mkGraph [(MicSource, Analyser 512)] RawMicStream.

Definition startRecording_filter := HighPass 85.
Definition startRecording_compressor := Compressor (-50) 40 12 0 250.
Definition startRecording_analyser := Analyser 64.

(** [startRecording] (earlier version): source -> filter -> compressor ->
    analyser -> destination and [new MediaRecorder(destination.stream)]. *)
Definition startRecording_graph : Graph :=
  mkGraph [(MicSource, startRecording_filter);
           (startRecording_filter, startRecording_compressor);
           (startRecording_compressor, startRecording_analyser);
           (startRecording_analyser, StreamDestination)]
          DestinationStream.

Fixpoint successor (n : Node) (es : list (Node * Node)) : option Node :=
  match es with
  | [] => None
  | (a, b) :: es' => if node_eqb a n then Some b else successor n es'
  end.

Fixpoint follow (fuel : nat) (n : Node) (es : list (Node * Node)) : list Node :=
  match fuel with
  | O => [n]
  | S k => match successor n es with
           | Some m => n :: follow k m es
           | None => [n]
           end
  end.

(** The chain of nodes whose output the recorder encodes: the raw stream is
    the microphone alone; the destination stream is what flows from the
    microphone into [StreamDestination]. *)
Definition recorded_chain (g : Graph) : option (list Node) :=
  match recorderInput g with
  | RawMicStream => Some [MicSource]
  | DestinationStream =>
      let p := follow (length (connections g)) MicSource (connections g) in
      if node_eqb (last p MicSource) StreamDestination then Some p else None
  end.

End AudioGraph.

(* ------------------------------------------------------------------ *)
(** ** secureCopy (src/unnamed/part_000) *)

Module ClipboardDelivery.

Inductive Exc (A : Type) := Ret (a : A) | Throw.
Arguments Ret {A} a.
Arguments Throw {A}.

Inductive Tier := ClipboardApi | TextareaExec | SpanExec.

(** What the browser does at each step: whether [navigator.clipboard.writeText]
    exists and how it settles, and for the two DOM tiers whether building the
    element throws, what [execCommand('copy')] returns or throws, and whether
    removing the element throws. *)
Record Browser := mkBrowser {
  clipboardApiAvailable : bool;
  writeText_result : Exc unit;
  textarea_setup : Exc unit;
  textarea_exec : Exc bool;
  textarea_cleanup : Exc unit;
  span_setup : Exc unit;
  span_exec : Exc bool;
  span_cleanup : Exc unit
}.

(** Exceptions and a trace of the tiers entered, with the text each copies. *)
Definition M (A : Type) := list (Tier * string) -> Exc A * list (Tier * string).

Definition ret {A} (a : A) : M A := fun tr => (Ret a, tr).
Definition bind {A B} (m : M A) (k : A -> M B) : M B :=
  fun tr => match m tr with
            | (Ret a, tr') => k a tr'
            | (Throw, tr') => (Throw, tr')
            end.
Definition lift {A} (e : Exc A) : M A := fun tr => (e, tr).
Definition attempt (t : Tier) (s : string) : M unit :=
  fun tr => (Ret tt, app tr [(t, s)]).
Definition try_catch {A} (m : M A) (handler : M A) : M A :=
  fun tr => match m tr with
            | (Ret a, tr') => (Ret a, tr')
            | (Throw, tr') => handler tr'
            end.

Notation "x <- m ;; k" := (bind m (fun x => k))
  (at level 61, m at next level, right associativity).
Notation "m ;;; k" := (bind m (fun _ => k))
  (at level 61, right associativity).

(** A stage yields [Some b] when it executes [return b], [None] when control
    falls through to the next stage. *)
Definition stage1 (b : Browser) (s : string) : M (option bool) :=
  if clipboardApiAvailable b then
    attempt ClipboardApi s ;;; lift (writeText_result b) ;;; ret (Some true)
  else ret None.

Definition stage2 (b : Browser) (s : string) : M (option bool) :=
  attempt TextareaExec s ;;;
  lift (textarea_setup b) ;;;
  successful <- lift (textarea_exec b) ;;
  lift (textarea_cleanup b) ;;;
  ret (if successful then Some true else None).

Definition stage3 (b : Browser) (s : string) : M (option bool) :=
  attempt SpanExec s ;;;
  lift (span_setup b) ;;;
  successful <- lift (span_exec b) ;;
  lift (span_cleanup b) ;;;
  ret (if successful then Some true else None).

(** Each stage sits in a try whose catch only logs a warning. *)
Definition secureCopy (b : Browser) (s : string) : M bool :=
  r1 <- try_catch (stage1 b s) (ret None) ;;
  match r1 with
  | Some v => ret v
  | None =>
      r2 <- try_catch (stage2 b s) (ret None) ;;
      match r2 with
      | Some v => ret v
      | None =>
          r3 <- try_catch (stage3 b s) (ret None) ;;
          match r3 with
          | Some v => ret v
          | None => ret false
          end
      end
  end.

(** A stage succeeds when it runs to [return true]. *)
Definition tier1_ok (b : Browser) : bool :=
  match writeText_result b with Ret _ => true | Throw => false end.
Definition dom_tier_ok (setup : Exc unit) (exec : Exc bool) (cleanup : Exc unit) : bool :=
  match setup, exec, cleanup with
  | Ret _, Ret true, Ret _ => true
  | _, _, _ => false
  end.

End ClipboardDelivery.

(* ------------------------------------------------------------------ *)
(** ** Scenarios *)

Definition hands_free : AppSettings := mkSettings AUTO true.
(** Frequency data of 256 bins (fftSize 512): loud enough for speech, and
    silent. *)
Definition speech_frame : list Z := repeat 40 256.
Definition silent_frame : list Z := repeat 0 256.

(** Start, speech at 1 s, then only silence up to 60 s. *)
Definition speech_then_silence : list Event :=
  [ClickToggle true 0; Frame 0 speech_frame 1000; Frame 0 silent_frame 5001;
   Frame 1 silent_frame 9000; Frame 0 silent_frame 60000].

(** Start, then only silence up to 60 s. *)
Definition silence_only : list Event :=
  [ClickToggle true 0; Frame 0 silent_frame 5000; Frame 1 silent_frame 10001;
   Frame 0 silent_frame 12000; Frame 1 silent_frame 60000].

Definition manual_mode : AppSettings := mkSettings AUTO false.
Definition manual_env : Env := mkEnv false manual_mode.

(** A stop with two recorded bytes and no detected speech. *)
Definition captured_state : St :=
  set_recorder (Some Inactive) (set_chunks [[1; 2]] initial).

Definition namaste_response : BoloResponse :=
  mkResponse (Some "  Namaste  ") "Hindi" (Some "Hello").

(* ------------------------------------------------------------------ *)
(** ** boloService.ts: [translateText] and the language context *)

(** The [value] of each [SupportedLanguage] member. *)
Definition language_value (l : SupportedLanguage) : string :=
  match l with
  | AUTO => "Auto-Detect"
  | ENGLISH => "English"
  | HINDI => "Hindi"
  | NEPALI => "Nepali"
  end.

Definition default_language_context : string :=
  "The audio contains speech in English, Hindi, Nepali, or a mix of these (Code-switching).".

(** [languageContext] of [processAudio]; [settings] is optional there. *)
Definition languageContext (settings : option AppSettings) : string :=
  match settings with
  | Some s =>
      match language s with
      | AUTO => default_language_context
      | l => "The audio is primarily in " ++ language_value l ++
             ", but may contain mixed English terms. Focus on transcribing " ++
             language_value l ++ " accurately."
      end
  | None => default_language_context
  end.

(** The message of the [Error] that [processAudio] throws on any failure. *)
Definition PROCESS_ERROR_MESSAGE : string :=
  "Bolo encountered an interference. Please try speaking clearly again.".

(** How [ai.models.generateContent] settles for [translateText]: a response
    whose [text] may be missing, or a rejection. *)
Inductive TranslateOutcome :=
| TResolved (responseText : option string)
| TRejected.

(** [translateText]: [response.text || ""], or "Translation failed." from
    the catch. *)
Definition translateText (o : TranslateOutcome) : string :=
  match o with
  | TResolved (Some t) => if String.eqb t EmptyString then EmptyString else t
  | TResolved None => EmptyString
  | TRejected => "Translation failed."
  end.

(* ------------------------------------------------------------------ *)
(** ** App (src/unnamed/part_000, hands-free version) *)

Inductive ViewState := CONSOLE | EDITOR | HISTORY | SETTINGS.

Record AppState := mkApp {
  currentView : ViewState;
  history : list TranscriptionRecord;
  activeRecord : option TranscriptionRecord;
  settings : AppSettings;
  copyError : option string;
  successSounds : nat                 (* playSuccessSound() calls *)
}.

Definition app_set_currentView (v : ViewState) (st : AppState) : AppState :=
  mkApp v (history st) (activeRecord st) (settings st) (copyError st) (successSounds st).

Definition app_set_history (v : list TranscriptionRecord) (st : AppState) : AppState :=
  mkApp (currentView st) v (activeRecord st) (settings st) (copyError st) (successSounds st).

Definition app_set_activeRecord (v : option TranscriptionRecord) (st : AppState) : AppState :=
  mkApp (currentView st) (history st) v (settings st) (copyError st) (successSounds st).

Definition app_set_settings (v : AppSettings) (st : AppState) : AppState :=
  mkApp (currentView st) (history st) (activeRecord st) v (copyError st) (successSounds st).

Definition app_set_copyError (v : option string) (st : AppState) : AppState :=
  mkApp (currentView st) (history st) (activeRecord st) (settings st) v (successSounds st).

Definition app_set_successSounds (v : nat) (st : AppState) : AppState :=
  mkApp (currentView st) (history st) (activeRecord st) (settings st) (copyError st) v.

Definition COPY_BLOCKED_MESSAGE : string := "Auto-copy blocked by browser.".

(** The [.then] continuation of [secureCopy(record.originalText)]; a rejected
    promise would reach no handler (it never happens, see [secureCopy_tiers]). *)
Definition after_auto_copy (b : ClipboardDelivery.Browser)
    (record : TranscriptionRecord) (st : AppState) : AppState :=
  match fst (ClipboardDelivery.secureCopy b (originalText record) []) with
  | ClipboardDelivery.Ret true =>
      app_set_copyError None (app_set_successSounds (S (successSounds st)) st)
  | ClipboardDelivery.Ret false =>
      app_set_copyError (Some COPY_BLOCKED_MESSAGE)
        (app_set_activeRecord (Some record) st)
  | ClipboardDelivery.Throw => st
  end.

(** [handleTranscriptionComplete]: the synchronous part, then the copy
    continuation with the browser behaviour [b]. *)
Definition handleTranscriptionComplete (b : ClipboardDelivery.Browser)
    (record : TranscriptionRecord) (st : AppState) : AppState :=
  let st1 := app_set_history (record :: history st)
               (app_set_activeRecord (Some record) st) in
  let st2 := if negb (handsFreeMode (settings st1))
             then app_set_currentView EDITOR st1 else st1 in
  after_auto_copy b record st2.

Definition handleManualRetryCopy (b : ClipboardDelivery.Browser) (st : AppState)
    : AppState :=
  match activeRecord st with
  | Some r =>
      match fst (ClipboardDelivery.secureCopy b (originalText r) []) with
      | ClipboardDelivery.Ret true =>
          app_set_copyError None (app_set_successSounds (S (successSounds st)) st)
      | _ => st
      end
  | None => st
  end.

(** [handleUpdateRecord]: [prev.map(item => item.id === updated.id ? updated : item)]. *)
Definition handleUpdateRecord (updated : TranscriptionRecord) (st : AppState)
    : AppState :=
  app_set_activeRecord (Some updated)
    (app_set_history
       (map (fun item => if String.eqb (id item) (id updated) then updated else item)
            (history st)) st).


(* ------------------------------------------------------------------ *)
(** ** Editor (src/unnamed/part_001) *)

Record EditorState := mkEditor {
  isEditing : bool;
  showTranslation : bool;
  currentText : string;
  currentTranslation : string;
  isTranslating : bool;
  isCopied : bool
}.

Definition ed_set_isEditing (v : bool) (st : EditorState) : EditorState :=
  mkEditor v (showTranslation st) (currentText st) (currentTranslation st) (isTranslating st) (isCopied st).

Definition ed_set_showTranslation (v : bool) (st : EditorState) : EditorState :=
  mkEditor (isEditing st) v (currentText st) (currentTranslation st) (isTranslating st) (isCopied st).

Definition ed_set_currentText (v : string) (st : EditorState) : EditorState :=
  mkEditor (isEditing st) (showTranslation st) v (currentTranslation st) (isTranslating st) (isCopied st).

Definition ed_set_currentTranslation (v : string) (st : EditorState) : EditorState :=
  mkEditor (isEditing st) (showTranslation st) (currentText st) v (isTranslating st) (isCopied st).

Definition ed_set_isTranslating (v : bool) (st : EditorState) : EditorState :=
  mkEditor (isEditing st) (showTranslation st) (currentText st) (currentTranslation st) v (isCopied st).

Definition ed_set_isCopied (v : bool) (st : EditorState) : EditorState :=
  mkEditor (isEditing st) (showTranslation st) (currentText st) (currentTranslation st) (isTranslating st) v.

(** The initial state for the record [data]: [data.translatedText || ""]. *)
Definition editor_init (data : TranscriptionRecord) : EditorState :=
  mkEditor false false (originalText data)
    (match translatedText data with Some t => t | None => EmptyString end)
    false false.

Definition with_translation (data : TranscriptionRecord) (t : string)
    : TranscriptionRecord :=
  mkRecord (id data) (originalText data) (Some t) (detectedLanguage data)
    (timestamp data).

(** [handleTranslate]: the new state, the record given to [onSave] if any,
    and whether [translateText] was called. *)
Definition handleTranslate (data : TranscriptionRecord) (o : TranslateOutcome)
    (ed : EditorState) : EditorState * option TranscriptionRecord * bool :=
  if showTranslation ed then (ed_set_showTranslation false ed, None, false)
  else if String.eqb (currentTranslation ed) EmptyString &&
          negb (String.eqb (currentText ed) EmptyString) then
    let trans := translateText o in
    (ed_set_showTranslation true
       (ed_set_isTranslating false (ed_set_currentTranslation trans ed)),
     Some (with_translation data trans), true)
  else (ed_set_showTranslation true ed, None, false).

(** [handleSaveAndClose]: the record given to [onSave], then the view. *)
Definition handleSaveAndClose (data : TranscriptionRecord) (ed : EditorState)
    : TranscriptionRecord * ViewState :=
  (mkRecord (id data) (currentText ed) (Some (currentTranslation ed))
     (detectedLanguage data) (timestamp data), HISTORY).

(* ------------------------------------------------------------------ *)
(** ** The earlier Console's [mediaRecorder.onstop] (Console.tsx, second part) *)

Module ConsoleV2.

(** Its record copies [result.text] as is, so the text may be missing. *)
Record RecordV2 := mkRecordV2 {
  v2_id : string;
  v2_originalText : option string;
  v2_translatedText : option string;
  v2_detectedLanguage : string;
  v2_timestamp : Z
}.

Record StV2 := mkStV2 {
  v2_isProcessing : bool;
  v2_errorMsg : option string;
  v2_emitted : list RecordV2;
  v2_tracksStopped : bool;
  v2_contextClosed : bool
}.

Definition onstop (res : ServiceResult) (nowId nowTs : Z) (st : StV2) : StV2 :=
  let tracks := true in   (* streamRef.current.getTracks().forEach(stop) *)
  let closed := true in   (* audioContextRef.current.close() *)
  match res with
  | Resolved r =>
      let newRecord := mkRecordV2 (number_toString nowId) (text r)
                         (englishTranslation r) (resp_detectedLanguage r) nowTs in
      mkStV2 true (v2_errorMsg st) (newRecord :: v2_emitted st) tracks closed
  | Rejected =>
      (* [err.message] of the Error thrown by processAudio *)
      mkStV2 false (Some PROCESS_ERROR_MESSAGE) (v2_emitted st) tracks closed
  end.

End ConsoleV2.

(* ------------------------------------------------------------------ *)
(** ** Predicates used by the properties *)

(** The events that run [startRecorderSession] (the start of a segment): a
    click on a non-recording console that gets the microphone, and the
    hands-free restart timer. *)
Definition starts_session (ev : Event) (st : St) : bool :=
  match ev with
  | ClickToggle g _ =>
      negb (isProcessing st) && negb (isRecording st) && (streamActive st || g)
  | RestartTimerFires _ =>
      restartTimer st && match onstopEnv st with Some _ => true | None => false end
  | _ => false
  end.

(** Every running loop and the recorder's [onstop] were created by closures
    of a render in which [isRecording] was false. *)
Definition closures_stale (st : St) : Prop :=
  Forall (fun e => env_isRecording e = false) (loops st) /\
  (forall e, onstopEnv st = Some e -> env_isRecording e = false).


(** The number of service calls still awaited ([awaiting]). *)
Definition pending (st : St) : nat :=
  match awaiting st with Some _ => 1 | None => 0 end%nat.

(* ================================================================== *)
(** * Properties *)

(** ** Basic facts about the stop handler *)

Lemma onstop_begin_calls env st :
  let '(st1, sent) := onstop_begin env st in
  let shouldProcess :=
    if handsFreeMode (env_settings env) then hasSpokenSinceStart st else true in
  (sent = if shouldProcess && (0 <? length (concat (chunks st)))%nat
          then Some (concat (chunks st)) else None) /\
  serviceCalls st1 = (match sent with Some b => b :: serviceCalls st
                                     | None => serviceCalls st end) /\
  emitted st1 = emitted st /\ errorMsg st1 = errorMsg st /\
  manualStop st1 = manualStop st /\ restartTimer st1 = restartTimer st /\
  isRecording st1 = isRecording st.
Proof.
  unfold onstop_begin; simpl.
  destruct (handsFreeMode (env_settings env)), (hasSpokenSinceStart st),
           (0 <? length (concat (chunks st)))%nat; simpl; repeat split.
Qed.

Lemma handle_result_frame env res nowId nowTs st :
  let st' := handle_result env res nowId nowTs st in
  serviceCalls st' = serviceCalls st /\ manualStop st' = manualStop st /\
  restartTimer st' = restartTimer st /\ isRecording st' = isRecording st.
Proof.
  unfold handle_result; destruct res as [r|];
    [destruct (passes_filter (cleaned_text r)) | destruct (negb _)];
    simpl; repeat split.
Qed.

Lemma onstop_end_frame env st :
  let st' := onstop_end env st in
  serviceCalls st' = serviceCalls st /\ emitted st' = emitted st /\
  errorMsg st' = errorMsg st /\
  restartTimer st' = (handsFreeMode (env_settings env) && negb (manualStop st))
                     || restartTimer st /\
  isRecording st' = (if handsFreeMode (env_settings env) && negb (manualStop st)
                     then isRecording st else false).
Proof.
  unfold onstop_end; simpl.
  destruct (handsFreeMode (env_settings env)), (manualStop st); simpl;
    repeat split.
Qed.

(** [onstop] as its two halves: what is sent, and what the post-processing
    leaves. *)
Lemma onstop_calls env res nowId nowTs st :
  let st' := onstop env res nowId nowTs st in
  let shouldProcess :=
    if handsFreeMode (env_settings env) then hasSpokenSinceStart st else true in
  serviceCalls st' =
    (if shouldProcess && (0 <? length (concat (chunks st)))%nat
     then concat (chunks st) :: serviceCalls st else serviceCalls st) /\
  (shouldProcess && (0 <? length (concat (chunks st)))%nat = false ->
     emitted st' = emitted st /\ errorMsg st' = errorMsg st).
Proof.
  pose proof (onstop_begin_calls env st) as H.
  unfold onstop; simpl.
  destruct (onstop_begin env st) as [st1 sent].
  destruct H as (Hsent & Hcalls & Hem & Herr & _).
  set (c := ((if handsFreeMode (env_settings env) then hasSpokenSinceStart st
              else true) && (0 <? length (concat (chunks st)))%nat)%bool) in *.
  destruct sent as [b|].
  - destruct (handle_result_frame env res nowId nowTs st1) as (Hh & _).
    destruct (onstop_end_frame env (handle_result env res nowId nowTs st1))
      as (He1 & _).
    simpl in *. rewrite He1, Hh, Hcalls.
    destruct c; [|discriminate]. split; [injection Hsent as ->; reflexivity|discriminate].
  - destruct (onstop_end_frame env st1) as (He1 & He2 & He3 & _).
    simpl in *. rewrite He1, He2, He3, Hcalls.
    destruct c; [discriminate|]. split; [reflexivity|auto].
Qed.

(** ** C1: which stops reach the Transcription Service *)

(** C1.  In hands-free mode a segment without detected speech is not sent and
    yields no record, and a segment that is sent had speech; in manual mode
    every non-empty capture (all chunks, concatenated) is sent whatever the
    VAD state. *)
Theorem onstop_dispatch_rule env res nowId nowTs st :
  let st' := onstop env res nowId nowTs st in
  (handsFreeMode (env_settings env) = true ->
     hasSpokenSinceStart st = false ->
     serviceCalls st' = serviceCalls st /\ emitted st' = emitted st) /\
  (handsFreeMode (env_settings env) = true ->
     serviceCalls st' <> serviceCalls st -> hasSpokenSinceStart st = true) /\
  (handsFreeMode (env_settings env) = false ->
     concat (chunks st) <> [] ->
     serviceCalls st' = concat (chunks st) :: serviceCalls st).
Proof.
  simpl.
  destruct (onstop_calls env res nowId nowTs st) as [Hc He]; simpl in Hc, He.
  split; [|split]; intros Hhf.
  - intros Hsp. rewrite Hhf, Hsp in Hc, He. split; [exact Hc | apply He; reflexivity].
  - intros Hne. rewrite Hhf in Hc.
    destruct (hasSpokenSinceStart st); [reflexivity|]. simpl in Hc. congruence.
  - intros Hne. rewrite Hhf in Hc. rewrite Hc.
    destruct (concat (chunks st)); [congruence|]. reflexivity.
Qed.

(** ** Facts used by the claims on the post-processing *)

Lemma number_toString_inj z z' :
  number_toString z = number_toString z' -> z = z'.
Proof.
  unfold number_toString; intros H.
  assert (Hn : forall w, Z.to_int w <> Decimal.Pos Decimal.Nil /\ Z.to_int w <> Decimal.Neg Decimal.Nil).
  { intros [|p|p]; simpl; split; try discriminate;
      intros [= Hp]; exact (DecimalPos.Unsigned.to_uint_nonnil p Hp). }
  destruct (Hn z) as [Hz1 Hz2], (Hn z') as [Hz1' Hz2'].
  apply DecimalZ.to_int_inj.
  apply (f_equal NilZero.int_of_string) in H.
  rewrite !NilZero.isi in H by assumption.
  congruence.
Qed.

Lemma onstop_unfold env res nowId nowTs st :
  onstop env res nowId nowTs st =
  onstop_end env (match snd (onstop_begin env st) with
                  | Some _ => handle_result env res nowId nowTs (fst (onstop_begin env st))
                  | None => fst (onstop_begin env st)
                  end).
Proof. unfold onstop. destruct (onstop_begin env st) as [st1 [b|]]; reflexivity. Qed.

Lemma handle_result_resolved env r nowId nowTs st :
  handle_result env (Resolved r) nowId nowTs st =
  if passes_filter (cleaned_text r)
  then set_emitted (mkRecord (number_toString nowId) (cleaned_text r)
                     (englishTranslation r) (resp_detectedLanguage r) nowTs
                    :: emitted st) st
  else st.
Proof. reflexivity. Qed.

Lemma passes_filter_spec c :
  passes_filter c = true <-> String.length c <> 0%nat /\ c <> SILENCE_TOKEN.
Proof.
  unfold passes_filter. rewrite andb_true_iff, negb_true_iff, Nat.ltb_lt,
    String.eqb_neq.
  split; intros [H1 H2]; split; auto; lia.
Qed.

Lemma cons_neq_self {A} (x : A) l : x :: l <> l.
Proof. intros H. apply (f_equal (@length A)) in H. simpl in H. lia. Qed.

(** Unfolds [onstop] into its halves and the frame facts of each half. *)
Ltac onstop_cases env st :=
  rewrite onstop_unfold;
  let H := fresh "Hbegin" in
  pose proof (onstop_begin_calls env st) as H;
  destruct (onstop_begin env st) as [st1 sent]; simpl fst; simpl snd;
  destruct H as (Hsent & Hcalls & Hem & Herr & Hman & Htimer & Hisrec).

Lemma onstop_end_emitted env s : emitted (onstop_end env s) = emitted s.
Proof. apply (onstop_end_frame env s). Qed.

Lemma onstop_end_errorMsg env s : errorMsg (onstop_end env s) = errorMsg s.
Proof. apply (onstop_end_frame env s). Qed.

(** ** C4: the post-filter on the returned text *)

(** C4.  A resolved response never surfaces an error; when its trimmed text
    is empty or the sentinel "SILENCE" no record is emitted; a record is
    emitted only when the trimmed text is non-empty and not the sentinel, and
    its text is the trimmed text. *)
Theorem onstop_response_filter env r nowId nowTs st :
  let st' := onstop env (Resolved r) nowId nowTs st in
  errorMsg st' = errorMsg st /\
  (cleaned_text r = EmptyString \/ cleaned_text r = SILENCE_TOKEN ->
     emitted st' = emitted st) /\
  (emitted st' <> emitted st ->
     String.length (cleaned_text r) <> 0%nat /\ cleaned_text r <> SILENCE_TOKEN /\
     exists rec, emitted st' = rec :: emitted st /\ originalText rec = cleaned_text r).
Proof.
  simpl. onstop_cases env st.
  rewrite onstop_end_emitted, onstop_end_errorMsg.
  destruct sent as [b|].
  - rewrite handle_result_resolved.
    destruct (passes_filter (cleaned_text r)) eqn:Hp; simpl.
    + apply passes_filter_spec in Hp. destruct Hp as [Hl Hs].
      split; [exact Herr|split].
      * intros [He|He]; [rewrite He in Hl; simpl in Hl; congruence | congruence].
      * intros _. split; [exact Hl|split; [exact Hs|]].
        eexists; split; [rewrite Hem; reflexivity | reflexivity].
    + split; [exact Herr|split; [intros _; exact Hem| intros Hne; congruence]].
  - split; [exact Herr|split; [intros _; exact Hem| intros Hne; congruence]].
Qed.

(** ** C5: a failed service call *)

(** C5.  When the service is called and fails, no record is emitted; in
    manual mode the user sees "Could not process audio." and the console
    returns to idle; in hands-free mode the error message is left alone and,
    unless the manual-stop flag is set, the restart is scheduled. *)
Theorem onstop_service_failure env nowId nowTs st st1 b
    (Hcall : onstop_begin env st = (st1, Some b)) :
  let st' := onstop env Rejected nowId nowTs st in
  emitted st' = emitted st /\
  (handsFreeMode (env_settings env) = false ->
     errorMsg st' = Some "Could not process audio." /\ isRecording st' = false) /\
  (handsFreeMode (env_settings env) = true ->
     errorMsg st' = errorMsg st /\
     (manualStop st = false -> restartTimer st' = true)).
Proof.
  cbv zeta. rewrite onstop_unfold, Hcall. simpl fst; simpl snd.
  pose proof (onstop_begin_calls env st) as H. rewrite Hcall in H.
  destruct H as (_ & _ & Hem & Herr & Hman & _).
  pose proof (onstop_end_frame env (handle_result env Rejected nowId nowTs st1))
    as (_ & He & Hr & Ht & Hi).
  cbv zeta in He, Hr, Ht, Hi. rewrite He, Hr, Ht, Hi.
  unfold handle_result.
  destruct (handsFreeMode (env_settings env)) eqn:Hhf; simpl.
  - split; [exact Hem|split; [discriminate|]].
    intros _. split; [exact Herr|]. intros Hm. rewrite Hman, Hm. reflexivity.
  - split; [exact Hem|split; [|discriminate]].
    intros _. split; reflexivity.
Qed.

(** ** C8: the record built from a response *)

(** C8.  A record emitted for a resolved response carries the response's
    detected language and English translation unchanged, the response text
    trimmed, the clock reading [nowTs] as timestamp and, as identifier, the
    decimal string of the clock reading [nowId], which determines that
    reading (records made at different milliseconds have different ids). *)
Theorem onstop_record_roundtrip env r nowId nowTs st rec
    (Hrec : emitted (onstop env (Resolved r) nowId nowTs st) = rec :: emitted st) :
  detectedLanguage rec = resp_detectedLanguage r /\
  translatedText rec = englishTranslation r /\
  (exists t, text r = Some t /\ originalText rec = trim t) /\
  id rec = number_toString nowId /\ timestamp rec = nowTs /\
  (forall z, number_toString z = id rec -> z = nowId).
Proof.
  revert Hrec. onstop_cases env st. rewrite onstop_end_emitted.
  destruct sent as [b|].
  - rewrite handle_result_resolved.
    destruct (passes_filter (cleaned_text r)) eqn:Hp; simpl; intros Hrec.
    + rewrite Hem in Hrec. injection Hrec as <-. simpl.
      split; [reflexivity|split; [reflexivity|split]].
      * unfold cleaned_text in *. destruct (text r) as [t|].
        -- exists t. split; reflexivity.
        -- apply passes_filter_spec in Hp. simpl in Hp. tauto.
      * split; [reflexivity|split; [reflexivity|]].
        intros z Hz. apply number_toString_inj, Hz.
    + rewrite Hem in Hrec. exfalso. exact (cons_neq_self rec _ (eq_sym Hrec)).
  - intros Hrec. rewrite Hem in Hrec. exfalso.
    exact (cons_neq_self rec _ (eq_sym Hrec)).
Qed.

(** ** C10: an empty capture *)

(** C10.  In either mode, when the recorded chunks hold no byte the service is
    not called, no record is emitted, the error message is untouched, and
    only the restart decision is applied. *)
Theorem onstop_empty_blob env res nowId nowTs st
    (Hempty : length (concat (chunks st)) = 0%nat) :
  let st' := onstop env res nowId nowTs st in
  serviceCalls st' = serviceCalls st /\ emitted st' = emitted st /\
  errorMsg st' = errorMsg st /\
  restartTimer st' = (handsFreeMode (env_settings env) && negb (manualStop st))
                     || restartTimer st /\
  isRecording st' = (if handsFreeMode (env_settings env) && negb (manualStop st)
                     then isRecording st else false).
Proof.
  cbv zeta. onstop_cases env st.
  rewrite Hempty, andb_false_r in Hsent. subst sent.
  pose proof (onstop_end_frame env st1) as (Hc & He & Hr & Ht & Hi).
  cbv zeta in Hc, He, Hr, Ht, Hi.
  rewrite Hc, He, Hr, Ht, Hi, Hcalls, Hem, Herr, Hman, Htimer, Hisrec.
  repeat split.
Qed.

(** ** C9: [hasSpokenSinceStart] within a segment *)


Lemma stopRecorderSession_hasSpoken st :
  hasSpokenSinceStart (stopRecorderSession st) = hasSpokenSinceStart st.
Proof. unfold stopRecorderSession. destruct (recorder st) as [[|]|]; reflexivity. Qed.

Lemma onstop_begin_hasSpoken env st :
  hasSpokenSinceStart (fst (onstop_begin env st)) = hasSpokenSinceStart st.
Proof. unfold onstop_begin. destruct (_ && _)%bool; reflexivity. Qed.

Lemma handle_result_hasSpoken env res a b st :
  hasSpokenSinceStart (handle_result env res a b st) = hasSpokenSinceStart st.
Proof.
  unfold handle_result. destruct res; [destruct (passes_filter _)|destruct (negb _)];
    reflexivity.
Qed.

Lemma onstop_end_hasSpoken env st :
  hasSpokenSinceStart (onstop_end env st) = hasSpokenSinceStart st.
Proof. unfold onstop_end. destruct (_ && _)%bool; reflexivity. Qed.

Lemma updateLoop_hasSpoken env data now st :
  hasSpokenSinceStart (fst (updateLoop env data now st)) =
  hasSpokenSinceStart st || (analyserReady st && is_speech data).
Proof.
  destruct st; unfold updateLoop, stopRecorderSession; simpl.
  destruct analyserReady0, (is_speech data), hasSpokenSinceStart0; simpl;
  repeat (match goal with
          | |- context [if ?c then _ else _] => destruct c
          | |- context [match ?r with Some _ => _ | None => _ end] => destruct r
          | |- context [match ?r with Inactive => _ | Recording => _ end] => destruct r
          end; simpl);
  reflexivity.
Qed.

Lemma startRecorderSession_hasSpoken env now st :
  recorder st <> None ->
  hasSpokenSinceStart (startRecorderSession env now st) = false.
Proof.
  intros Hr. unfold startRecorderSession.
  destruct (recorder st) as [[|]|]; [|reflexivity|congruence].
  unfold start_loop. simpl.
  destruct (animationFrameSet st), (analyserReady st); reflexivity.
Qed.

(** C9.  A frame of the VAD loop leaves the flag unchanged or sets it, and it
    sets it exactly on a speech frame; starting a segment clears it; no other
    event clears it. *)
Theorem hasSpoken_monotone_in_segment :
  (forall env data now st,
     hasSpokenSinceStart (fst (updateLoop env data now st)) =
     hasSpokenSinceStart st || (analyserReady st && is_speech data)) /\
  (forall env now st, recorder st <> None ->
     hasSpokenSinceStart (startRecorderSession env now st) = false) /\
  (forall props ev st,
     hasSpokenSinceStart st = true -> starts_session ev st = false ->
     hasSpokenSinceStart (step props ev st) = true).
Proof.
  split; [exact updateLoop_hasSpoken|split; [exact startRecorderSession_hasSpoken|]].
  intros props ev st Hs Hstart.
  destruct ev as [g now|i data now|b| |res a c|now]; simpl in *.
  - destruct (isProcessing st); [exact Hs|].
    unfold handleToggleRecord; simpl.
    destruct (isRecording st); simpl.
    + rewrite stopRecorderSession_hasSpoken. exact Hs.
    + unfold initAudio; simpl.
      destruct (streamActive st), g; simpl in *; try discriminate. exact Hs.
  - destruct (nth_error (loops st) i) as [env|]; [|exact Hs].
    pose proof (updateLoop_hasSpoken env data now st) as Hu.
    destruct (updateLoop env data now st) as [st1 cont]. simpl in Hu.
    rewrite Hs in Hu. simpl in Hu.
    destruct cont; exact Hu.
  - destruct (0 <? length b)%nat; exact Hs.
  - destruct (stopPending st), (onstopEnv st) as [env|]; try exact Hs.
    pose proof (onstop_begin_hasSpoken env st) as Hb.
    destruct (onstop_begin env st) as [st1 [blob|]]; simpl in Hb.
    + simpl. rewrite Hb. exact Hs.
    + rewrite onstop_end_hasSpoken, Hb. exact Hs.
  - destruct (awaiting st), (onstopEnv st) as [env|]; try exact Hs.
    rewrite onstop_end_hasSpoken, handle_result_hasSpoken. exact Hs.
  - destruct (restartTimer st), (onstopEnv st); try exact Hs; discriminate.
Qed.

(** ** The closures of the hands-free loop *)


Ltac crush_st st :=
  destruct st; simpl in *;
  repeat (match goal with
          | |- context [if ?c then _ else _] => destruct c
          | |- context [match ?r with Some _ => _ | None => _ end] => destruct r
          | |- context [match ?r with Inactive => _ | Recording => _ end] => destruct r
          end; simpl in * ).

Lemma stopRecorderSession_closures st :
  loops (stopRecorderSession st) = loops st /\
  onstopEnv (stopRecorderSession st) = onstopEnv st.
Proof. unfold stopRecorderSession. crush_st st; split; reflexivity. Qed.

Lemma onstop_begin_closures env st :
  loops (fst (onstop_begin env st)) = loops st /\
  onstopEnv (fst (onstop_begin env st)) = onstopEnv st.
Proof. unfold onstop_begin. crush_st st; split; reflexivity. Qed.

Lemma handle_result_closures env res a b st :
  loops (handle_result env res a b st) = loops st /\
  onstopEnv (handle_result env res a b st) = onstopEnv st.
Proof. unfold handle_result. destruct res; crush_st st; split; reflexivity. Qed.

Lemma onstop_end_closures env st :
  loops (onstop_end env st) = loops st /\ onstopEnv (onstop_end env st) = onstopEnv st.
Proof. unfold onstop_end. crush_st st; split; reflexivity. Qed.

Lemma updateLoop_closures env data now st :
  loops (fst (updateLoop env data now st)) = loops st /\
  onstopEnv (fst (updateLoop env data now st)) = onstopEnv st.
Proof.
  unfold updateLoop, stopRecorderSession. crush_st st; split; reflexivity.
Qed.

Lemma start_loop_stale env st :
  env_isRecording env = false -> closures_stale st ->
  closures_stale (start_loop env st).
Proof.
  intros He [Hl Ho]. unfold start_loop.
  destruct (analyserReady st); [|split; assumption].
  split; [simpl; apply Forall_app; split; [exact Hl|constructor; auto] | exact Ho].
Qed.

Lemma startRecorderSession_stale env now st :
  env_isRecording env = false -> closures_stale st ->
  closures_stale (startRecorderSession env now st).
Proof.
  intros He [Hl Ho]. unfold startRecorderSession.
  destruct (recorder st) as [[|]|]; [| split; assumption | split; assumption].
  simpl. destruct (animationFrameSet st); [split; assumption|].
  apply start_loop_stale; [exact He|split; assumption].
Qed.

Lemma remove_nth_Forall {A} (P : A -> Prop) i l :
  Forall P l -> Forall P (remove_nth i l).
Proof.
  revert i; induction l as [|x l IH]; intros [|i] H; simpl; auto.
  - inversion H; assumption.
  - inversion H; subst. constructor; auto.
Qed.

Lemma step_closures_stale props ev st :
  closures_stale st -> closures_stale (step props ev st).
Proof.
  intros Hst. pose proof Hst as [Hl Ho].
  destruct ev as [g now|i data now|b| |res a c|now]; simpl.
  - destruct (isProcessing st); [exact Hst|].
    unfold handleToggleRecord; simpl.
    destruct (isRecording st) eqn:Hr; simpl.
    + pose proof (stopRecorderSession_closures
                    (set_manualStop true (set_errorMsg None st))) as [E1 E2].
      split; [rewrite E1; exact Hl | rewrite E2; exact Ho].
    + unfold initAudio; simpl.
      destruct (streamActive st); [|destruct g]; simpl.
      * apply start_loop_stale; [reflexivity|].
        apply startRecorderSession_stale; [reflexivity|].
        split; assumption.
      * apply start_loop_stale; [reflexivity|].
        apply startRecorderSession_stale; [reflexivity|].
        split; [exact Hl|]. simpl. intros e [= <-]. reflexivity.
      * split; assumption.
  - destruct (nth_error (loops st) i) as [env|]; [|exact Hst].
    pose proof (updateLoop_closures env data now st) as [E1 E2].
    destruct (updateLoop env data now st) as [st1 cont]; simpl in E1, E2.
    destruct cont.
    + split; [rewrite E1; exact Hl | rewrite E2; exact Ho].
    + split; simpl; [rewrite E1; apply remove_nth_Forall, Hl | rewrite E2; exact Ho].
  - destruct (0 <? length b)%nat; [split; assumption | exact Hst].
  - destruct (stopPending st), (onstopEnv st) as [env|] eqn:Hoe; try exact Hst.
    pose proof (onstop_begin_closures env st) as [E1 E2].
    destruct (onstop_begin env st) as [st1 [blob|]]; simpl in E1, E2.
    + split; simpl; [rewrite E1; exact Hl | rewrite E2, Hoe; exact Ho].
    + destruct (onstop_end_closures env st1) as [E3 E4].
      split; [rewrite E3, E1; exact Hl | rewrite E4, E2, Hoe; exact Ho].
  - destruct (awaiting st), (onstopEnv st) as [env|] eqn:Hoe; try exact Hst.
    destruct (onstop_end_closures env
               (handle_result env res a c (set_awaiting None st))) as [E3 E4].
    destruct (handle_result_closures env res a c (set_awaiting None st)) as [E5 E6].
    split; [rewrite E3, E5; exact Hl | rewrite E4, E6; simpl; rewrite Hoe; exact Ho].
  - destruct (restartTimer st), (onstopEnv st) as [env|] eqn:Hoe; try exact Hst.
    apply startRecorderSession_stale; [apply Ho; reflexivity|].
    split; simpl; [exact Hl | rewrite Hoe; exact Ho].
Qed.

Lemma reachable_closures_stale props st :
  reachable props st -> closures_stale st.
Proof.
  induction 1.
  - split; [constructor | discriminate].
  - apply step_closures_stale; assumption.
Qed.

Lemma updateLoop_stale_keeps env data now st :
  env_isRecording env = false ->
  recorder (fst (updateLoop env data now st)) = recorder st /\
  stopPending (fst (updateLoop env data now st)) = stopPending st /\
  manualStop (fst (updateLoop env data now st)) = manualStop st.
Proof.
  intros He. unfold updateLoop. rewrite He. simpl.
  crush_st st; repeat split.
Qed.

(** A frame of any running loop, in any reachable state, leaves the recorder
    as it is: the hands-free timeouts of [updateLoop] never fire. *)
Lemma frame_keeps_recorder props st i data now :
  reachable props st ->
  recorder (step props (Frame i data now) st) = recorder st /\
  stopPending (step props (Frame i data now) st) = stopPending st /\
  manualStop (step props (Frame i data now) st) = manualStop st.
Proof.
  intros Hreach. destruct (reachable_closures_stale props st Hreach) as [Hl _].
  simpl. destruct (nth_error (loops st) i) as [env|] eqn:Hn; [|repeat split].
  assert (He : env_isRecording env = false).
  { rewrite Forall_forall in Hl. apply Hl. eapply nth_error_In; eassumption. }
  pose proof (updateLoop_stale_keeps env data now st He) as (E1 & E2 & E3).
  destruct (updateLoop env data now st) as [st1 []]; simpl in *; repeat split; assumption.
Qed.

(** With the closure of the current render the post-speech timeout would
    stop the recorder: the check itself is right, the environment is not. *)
Lemma updateLoop_current_render_would_stop :
  let st := run hands_free [ClickToggle true 0; Frame 0 speech_frame 1000] initial in
  isRecording st = true /\
  recorder (fst (updateLoop (mkEnv (isRecording st) hands_free) silent_frame 5001 st))
    = Some Inactive.
Proof. vm_compute. split; reflexivity. Qed.

(** ** C2: post-speech silence in hands-free mode *)

(** C2 (the claim fails).  Hands-free mode, speech at 1 s, then silence for
    more than 4 s: the recorder keeps recording, nothing is sent and no restart
    is scheduled; in every reachable state no frame of the VAD loop stops the
    recorder. *)
Theorem hands_free_post_speech_silence_never_stops :
  let st := run hands_free speech_then_silence initial in
  recorder st = Some Recording /\ hasSpokenSinceStart st = true /\
  lastSpeechTimestamp st = 1000 /\ stopPending st = false /\
  serviceCalls st = [] /\ restartTimer st = false /\
  (forall props st0 i data now, reachable props st0 ->
     recorder (step props (Frame i data now) st0) = recorder st0 /\
     stopPending (step props (Frame i data now) st0) = stopPending st0).
Proof.
  split; [vm_compute; reflexivity|].
  split; [vm_compute; reflexivity|].
  split; [vm_compute; reflexivity|].
  split; [vm_compute; reflexivity|].
  split; [vm_compute; reflexivity|].
  split; [vm_compute; reflexivity|].
  intros props st0 i data now Hr.
  destruct (frame_keeps_recorder props st0 i data now Hr) as (E1 & E2 & _).
  split; assumption.
Qed.

(** ** C3: initial silence in hands-free mode *)

(** C3 (the claim fails).  Hands-free mode, no speech for 60 s after the
    start: the recorder keeps recording, the manual-stop flag stays clear and
    the recorder is never stopped by a frame of the VAD loop. *)
Theorem hands_free_initial_silence_never_stops :
  let st := run hands_free silence_only initial in
  recorder st = Some Recording /\ hasSpokenSinceStart st = false /\
  startTime st = 0 /\ manualStop st = false /\ stopPending st = false /\
  isRecording st = true /\
  (forall props st0 i data now, reachable props st0 ->
     recorder (step props (Frame i data now) st0) = recorder st0 /\
     manualStop (step props (Frame i data now) st0) = manualStop st0).
Proof.
  split; [vm_compute; reflexivity|].
  split; [vm_compute; reflexivity|].
  split; [vm_compute; reflexivity|].
  split; [vm_compute; reflexivity|].
  split; [vm_compute; reflexivity|].
  split; [vm_compute; reflexivity|].
  intros props st0 i data now Hr.
  destruct (frame_keeps_recorder props st0 i data now Hr) as (E1 & _ & E3).
  split; assumption.
Qed.

(** ** C6: the clipboard tiers *)

Section ClipboardTiers.
Import ClipboardDelivery.

(** C6.  [secureCopy] never throws; it enters the Clipboard API tier when the
    API exists, the textarea tier only when that one is missing or failed, and
    the span tier only when the textarea tier failed too; it returns true at
    the first tier that succeeds, and false only when the span tier, tried
    last, failed. *)
Theorem secureCopy_tiers (b : Browser) (s : string) :
  secureCopy b s [] =
  (let t1 := if clipboardApiAvailable b then [(ClipboardApi, s)] else [] in
   if clipboardApiAvailable b && tier1_ok b then (Ret true, [(ClipboardApi, s)])
   else if dom_tier_ok (textarea_setup b) (textarea_exec b) (textarea_cleanup b)
   then (Ret true, app t1 [(TextareaExec, s)])
   else (Ret (dom_tier_ok (span_setup b) (span_exec b) (span_cleanup b)),
         app t1 [(TextareaExec, s); (SpanExec, s)])).
Proof.
  destruct b as [av w ts te tc ss se sc]; simpl.
  destruct av, w as [[]|], ts as [[]|], te as [[]|], tc as [[]|],
           ss as [[]|], se as [[]|], sc as [[]|];
    reflexivity.
Qed.

End ClipboardTiers.

(** ** C7: the audio conditioning chain *)

(** C7, counterexample.  The hands-free console records the raw microphone
    stream: its recorded chain is the microphone alone, not the conditioning
    chain. *)
Lemma hands_free_records_raw_microphone :
  AudioGraph.recorderInput AudioGraph.initAudio_graph = AudioGraph.RawMicStream /\
  AudioGraph.recorded_chain AudioGraph.initAudio_graph = Some [AudioGraph.MicSource] /\
  AudioGraph.recorded_chain AudioGraph.initAudio_graph <>
    Some [AudioGraph.MicSource; AudioGraph.HighPass 85;
          AudioGraph.startRecording_compressor;
          AudioGraph.startRecording_analyser; AudioGraph.StreamDestination].
Proof. vm_compute. split; [reflexivity|split; [reflexivity|discriminate]]. Qed.

(** C7, as the code has it.  The [startRecording] console records the output
    of microphone -> high-pass 85 Hz -> compressor (threshold -50 dB, knee 40,
    ratio 12, attack 0, release 250 ms) -> analyser (fftSize 64) ->
    destination; the hands-free [initAudio] console records the raw
    microphone stream and taps the analyser (fftSize 512) straight from the
    source. *)
Theorem audio_chains_of_both_consoles :
  AudioGraph.recorded_chain AudioGraph.startRecording_graph =
    Some [AudioGraph.MicSource; AudioGraph.HighPass 85;
          AudioGraph.Compressor (-50) 40 12 0 250;
          AudioGraph.Analyser 64; AudioGraph.StreamDestination] /\
  AudioGraph.recorded_chain AudioGraph.initAudio_graph = Some [AudioGraph.MicSource] /\
  AudioGraph.connections AudioGraph.initAudio_graph =
    [(AudioGraph.MicSource, AudioGraph.Analyser 512)].
Proof. vm_compute. repeat split. Qed.

(** ** Witnesses *)

Lemma onstop_service_failure_witness :
  onstop_begin manual_env captured_state =
    (fst (onstop_begin manual_env captured_state), Some [1; 2]) /\
  errorMsg (onstop manual_env Rejected 5 6 captured_state) =
    Some "Could not process audio.".
Proof.
  assert (H : onstop_begin manual_env captured_state =
              (fst (onstop_begin manual_env captured_state), Some [1; 2]))
    by (vm_compute; reflexivity).
  split; [exact H|].
  exact (proj1 (proj1 (proj2 (onstop_service_failure manual_env 5 6 captured_state
                                _ _ H)) eq_refl)).
Defined.

Lemma onstop_record_roundtrip_witness :
  emitted (onstop manual_env (Resolved namaste_response) 7000 7001 captured_state) =
    mkRecord "7000" "Namaste" (Some "Hello") "Hindi" 7001 :: emitted captured_state /\
  detectedLanguage (mkRecord "7000" "Namaste" (Some "Hello") "Hindi" 7001) =
    resp_detectedLanguage namaste_response.
Proof.
  assert (H : emitted (onstop manual_env (Resolved namaste_response) 7000 7001
                         captured_state) =
              mkRecord "7000" "Namaste" (Some "Hello") "Hindi" 7001
                :: emitted captured_state)
    by (vm_compute; reflexivity).
  split; [exact H|].
  exact (proj1 (onstop_record_roundtrip manual_env namaste_response 7000 7001
                  captured_state _ H)).
Defined.

Lemma onstop_empty_blob_witness :
  length (concat (chunks initial)) = 0%nat /\
  serviceCalls (onstop manual_env Rejected 0 0 initial) = serviceCalls initial.
Proof.
  assert (H : length (concat (chunks initial)) = 0%nat) by reflexivity.
  split; [exact H|].
  exact (proj1 (onstop_empty_blob manual_env Rejected 0 0 initial H)).
Defined.

(* ================================================================== *)
(** * Further properties of the code *)

(** ** secureCopy, used by the App handlers *)

Lemma secureCopy_result (b : ClipboardDelivery.Browser) (s : string) :
  exists v, fst (ClipboardDelivery.secureCopy b s []) = ClipboardDelivery.Ret v.
Proof.
  destruct b as [av w ts te tc ss se sc]; simpl.
  destruct av, w as [[]|], ts as [[]|], te as [[]|], tc as [[]|],
           ss as [[]|], se as [[]|], sc as [[]|];
    eexists; reflexivity.
Qed.

(** ** App: deleting a record *)


(** ** App: replacing a record *)

(** Updating keeps the history's length and order: each record with the
    updated record's id is replaced by it, every other one is kept; the updated
    record becomes the open one.  If no record has that id the history is left
    as it was. *)
Theorem handleUpdateRecord_spec u st :
  let st' := handleUpdateRecord u st in
  length (history st') = length (history st) /\
  (forall k r, nth_error (history st) k = Some r ->
     nth_error (history st') k = Some (if String.eqb (id r) (id u) then u else r)) /\
  activeRecord st' = Some u /\
  ((forall r, In r (history st) -> id r <> id u) -> history st' = history st).
Proof.
  cbv zeta. unfold handleUpdateRecord; simpl.
  split; [apply length_map|split; [|split; [reflexivity|]]].
  - intros k r Hk. rewrite nth_error_map, Hk. reflexivity.
  - intros Hnone. induction (history st) as [|x l IH]; [reflexivity|].
    simpl. rewrite IH by (intros r Hr; apply Hnone; right; exact Hr).
    destruct (String.eqb (id x) (id u)) eqn:He; [|reflexivity].
    apply String.eqb_eq in He. exfalso. apply (Hnone x); [left; reflexivity|exact He].
Qed.

(** ** App: a new transcription *)

(** A new record is put in front of the history and opened; the view goes
    to the editor in manual mode and stays in hands-free mode.  The automatic
    copy of its text settles with a boolean: on success the copy error is
    cleared and one success sound plays, on failure the record stays open and
    the "Auto-copy blocked by browser." message is shown. *)
Theorem handleTranscriptionComplete_spec b record st :
  let st' := handleTranscriptionComplete b record st in
  history st' = record :: history st /\
  activeRecord st' = Some record /\
  currentView st' = (if handsFreeMode (settings st) then currentView st else EDITOR) /\
  exists v, fst (ClipboardDelivery.secureCopy b (originalText record) [])
              = ClipboardDelivery.Ret v /\
  (v = true -> copyError st' = None /\ successSounds st' = S (successSounds st)) /\
  (v = false -> copyError st' = Some COPY_BLOCKED_MESSAGE /\
                successSounds st' = successSounds st).
Proof.
  cbv zeta. unfold handleTranscriptionComplete, after_auto_copy.
  destruct (secureCopy_result b (originalText record)) as [v Hv].
  rewrite Hv. simpl.
  destruct (handsFreeMode (settings st)), v; simpl;
    (split; [reflexivity|split; [reflexivity|split; [reflexivity|]]]);
    eexists; (split; [reflexivity|]); split; intros H; try discriminate;
    split; reflexivity.
Qed.

(** ** App: retrying the copy *)

(** The retry copies the open record's text: with no open record nothing
    happens; a failed copy changes nothing (the error stays); a successful one
    clears the error and plays the success sound. *)
Theorem handleManualRetryCopy_spec b st :
  let st' := handleManualRetryCopy b st in
  (activeRecord st = None -> st' = st) /\
  (forall r, activeRecord st = Some r ->
     (fst (ClipboardDelivery.secureCopy b (originalText r) []) =
        ClipboardDelivery.Ret false -> st' = st) /\
     (fst (ClipboardDelivery.secureCopy b (originalText r) []) =
        ClipboardDelivery.Ret true ->
        copyError st' = None /\ successSounds st' = S (successSounds st) /\
        history st' = history st /\ activeRecord st' = activeRecord st)).
Proof.
  cbv zeta. unfold handleManualRetryCopy.
  split; [intros H; rewrite H; reflexivity|].
  intros r Hr. rewrite Hr.
  split; intros Hc; rewrite Hc.
  - reflexivity.
  - simpl. repeat split. exact Hr.
Qed.

(** ** Editor: translating *)

(** The translate button: when the translation is shown it only hides it;
    when a translation is already there it only shows it; otherwise, for a
    non-empty text, it calls the service once, shows the result and saves
    the editor's record with that translation and with the record's own
    original text (not the text being edited).  A rejected call saves
    "Translation failed." as the translation. *)
Theorem handleTranslate_spec data o ed :
  let '(ed', saved, called) := handleTranslate data o ed in
  (showTranslation ed = true ->
     showTranslation ed' = false /\ saved = None /\ called = false /\
     currentTranslation ed' = currentTranslation ed) /\
  (showTranslation ed = false -> currentTranslation ed <> EmptyString ->
     showTranslation ed' = true /\ saved = None /\ called = false /\
     currentTranslation ed' = currentTranslation ed) /\
  (showTranslation ed = false -> currentTranslation ed = EmptyString ->
     currentText ed <> EmptyString ->
     showTranslation ed' = true /\ called = true /\
     currentTranslation ed' = translateText o /\
     saved = Some (mkRecord (id data) (originalText data) (Some (translateText o))
                     (detectedLanguage data) (timestamp data)) /\
     (o = TRejected ->
        option_map translatedText saved = Some (Some "Translation failed."))).
Proof.
  unfold handleTranslate.
  destruct (showTranslation ed) eqn:Hs.
  - simpl. split; [intros _; repeat split|split; intros H; discriminate].
  - destruct (String.eqb_spec (currentTranslation ed) EmptyString) as [Ht|Ht];
    destruct (String.eqb_spec (currentText ed) EmptyString) as [Hx|Hx]; simpl.
    + split; [discriminate|split; intros _ H; [congruence|]]. intros H'; congruence.
    + split; [discriminate|split; intros _ H; [congruence|]].
      intros _. repeat split. intros ->. reflexivity.
    + split; [discriminate|split; intros _ H; [repeat split|congruence]].
    + split; [discriminate|split; intros _ H; [repeat split|congruence]].
Qed.

(** ** Editor and App: saving an edited record *)

(** Save-and-close, handed to the App's update: every history entry with the
    record's id now holds the edited text and the current translation, with
    the id, detected language and timestamp of the record; the others are
    unchanged, the saved record is the open one and the editor asks for the
    history view. *)
Theorem save_and_close_updates_history data ed st :
  let '(saved, view) := handleSaveAndClose data ed in
  let st' := handleUpdateRecord saved st in
  view = HISTORY /\
  activeRecord st' = Some saved /\
  (forall k r, nth_error (history st) k = Some r ->
     nth_error (history st') k =
       Some (if String.eqb (id r) (id data)
             then mkRecord (id data) (currentText ed) (Some (currentTranslation ed))
                           (detectedLanguage data) (timestamp data)
             else r)).
Proof.
  simpl. split; [reflexivity|split; [reflexivity|]].
  intros k r Hk. unfold handleUpdateRecord; simpl.
  rewrite nth_error_map, Hk. reflexivity.
Qed.

(** ** Hands-free Console: how sessions end *)








(** ** Hands-free Console: buffers, service calls and the microphone *)

Ltac fields_tac :=
  repeat split; auto; intros; try discriminate; repeat split; auto.


Lemma startRecorderSession_fields env now st :
  serviceCalls (startRecorderSession env now st) = serviceCalls st /\
  emitted (startRecorderSession env now st) = emitted st /\
  awaiting (startRecorderSession env now st) = awaiting st /\
  (chunks (startRecorderSession env now st) = chunks st \/
   chunks (startRecorderSession env now st) = []) /\
  streamActive (startRecorderSession env now st) = streamActive st /\
  onstopEnv (startRecorderSession env now st) = onstopEnv st.
Proof. unfold startRecorderSession, start_loop. crush_st st; fields_tac. Qed.

Lemma handleToggleRecord_fields env g now st :
  serviceCalls (handleToggleRecord env g now st) = serviceCalls st /\
  emitted (handleToggleRecord env g now st) = emitted st /\
  awaiting (handleToggleRecord env g now st) = awaiting st /\
  (chunks (handleToggleRecord env g now st) = chunks st \/
   chunks (handleToggleRecord env g now st) = []) /\
  (streamActive st = true ->
   streamActive (handleToggleRecord env g now st) = true /\
   onstopEnv (handleToggleRecord env g now st) = onstopEnv st).
Proof.
  unfold handleToggleRecord, initAudio, startRecorderSession, start_loop,
    stopRecorderSession.
  crush_st st; fields_tac.
Qed.

Lemma updateLoop_fields env data now st :
  serviceCalls (fst (updateLoop env data now st)) = serviceCalls st /\
  emitted (fst (updateLoop env data now st)) = emitted st /\
  awaiting (fst (updateLoop env data now st)) = awaiting st /\
  chunks (fst (updateLoop env data now st)) = chunks st /\
  streamActive (fst (updateLoop env data now st)) = streamActive st /\
  onstopEnv (fst (updateLoop env data now st)) = onstopEnv st.
Proof. unfold updateLoop, stopRecorderSession. crush_st st; fields_tac. Qed.

Lemma onstop_begin_fields env st :
  emitted (fst (onstop_begin env st)) = emitted st /\
  awaiting (fst (onstop_begin env st)) = awaiting st /\
  chunks (fst (onstop_begin env st)) = [] /\
  streamActive (fst (onstop_begin env st)) = streamActive st /\
  onstopEnv (fst (onstop_begin env st)) = onstopEnv st /\
  match snd (onstop_begin env st) with
  | Some b => (0 < length b)%nat /\
              serviceCalls (fst (onstop_begin env st)) = b :: serviceCalls st
  | None => serviceCalls (fst (onstop_begin env st)) = serviceCalls st
  end.
Proof.
  unfold onstop_begin. destruct st; simpl.
  match goal with |- context [if ?c then _ else _] => destruct c eqn:E end;
    simpl; fields_tac.
  apply andb_prop in E. apply Nat.ltb_lt, E.
Qed.

Lemma handle_result_fields env res a c st :
  serviceCalls (handle_result env res a c st) = serviceCalls st /\
  (emitted (handle_result env res a c st) = emitted st \/
   exists r, emitted (handle_result env res a c st) = r :: emitted st) /\
  awaiting (handle_result env res a c st) = awaiting st /\
  chunks (handle_result env res a c st) = chunks st /\
  streamActive (handle_result env res a c st) = streamActive st /\
  onstopEnv (handle_result env res a c st) = onstopEnv st.
Proof.
  unfold handle_result. destruct res; crush_st st; fields_tac.
  right; eexists; reflexivity.
Qed.

Lemma onstop_end_fields env st :
  serviceCalls (onstop_end env st) = serviceCalls st /\
  emitted (onstop_end env st) = emitted st /\
  awaiting (onstop_end env st) = awaiting st /\
  chunks (onstop_end env st) = chunks st /\
  streamActive (onstop_end env st) = streamActive st /\
  onstopEnv (onstop_end env st) = onstopEnv st.
Proof. unfold onstop_end. crush_st st; fields_tac. Qed.

Lemma step_buffers props ev st :
  Forall (fun b => (0 < length b)%nat) (chunks st) ->
  Forall (fun b => (0 < length b)%nat) (serviceCalls st) ->
  (length (emitted st) + pending st <= length (serviceCalls st))%nat ->
  Forall (fun b => (0 < length b)%nat) (chunks (step props ev st)) /\
  Forall (fun b => (0 < length b)%nat) (serviceCalls (step props ev st)) /\
  (length (emitted (step props ev st)) + pending (step props ev st)
     <= length (serviceCalls (step props ev st)))%nat.
Proof.
  unfold pending. intros Hc Hs Hn.
  destruct ev as [g now|i data now|b| |res a c|now]; simpl.
  - destruct (isProcessing st); [auto|].
    destruct (handleToggleRecord_fields (mkEnv (isRecording st) props) g now st)
      as (E1 & E2 & E3 & [E4|E4] & _); rewrite E1, E2, E3, ?E4; auto.
  - destruct (nth_error (loops st) i) as [env|]; [|auto].
    destruct (updateLoop_fields env data now st) as (E1 & E2 & E3 & E4 & _).
    destruct (updateLoop env data now st) as [st1 []]; simpl in *;
      rewrite E1, E2, E3, E4; auto.
  - destruct (Nat.ltb_spec 0 (length b)); [|auto].
    split; [apply Forall_app; split; [exact Hc|constructor; auto]|auto].
  - destruct (stopPending st), (onstopEnv st) as [env|]; try (auto; fail).
    destruct (onstop_begin_fields env st) as (E1 & E2 & E3 & _ & _ & E6).
    destruct (onstop_begin env st) as [st1 [blob|]]; simpl in *.
    + destruct E6 as [Hb E6]. rewrite E1, E3, E6.
      split; [constructor|split; [constructor; auto|]].
      simpl. destruct (awaiting st); lia.
    + destruct (onstop_end_fields env st1) as (G1 & G2 & G3 & G4 & _).
      rewrite G1, G2, G3, G4, E1, E2, E3, E6. auto.
  - destruct (awaiting st) as [w|] eqn:Hw, (onstopEnv st) as [env|];
      try (rewrite ?Hw; auto; fail).
    destruct (onstop_end_fields env (handle_result env res a c (set_awaiting None st)))
      as (G1 & G2 & G3 & G4 & _).
    destruct (handle_result_fields env res a c (set_awaiting None st))
      as (F1 & [F2|[r F2]] & F3 & F4 & _);
      rewrite G1, G2, G3, G4, F1, ?F2, F3, F4; simpl; repeat split; auto; lia.
  - destruct (restartTimer st), (onstopEnv st) as [env|]; try (auto; fail).
    destruct (startRecorderSession_fields env now (set_restartTimer false st))
      as (E1 & E2 & E3 & [E4|E4] & _); rewrite E1, E2, E3, ?E4; simpl; auto.
Qed.

Lemma reachable_buffers props st :
  reachable props st ->
  Forall (fun b => (0 < length b)%nat) (chunks st) /\
  Forall (fun b => (0 < length b)%nat) (serviceCalls st) /\
  (length (emitted st) + pending st <= length (serviceCalls st))%nat.
Proof.
  induction 1 as [|ev st Hr (IH1 & IH2 & IH3)].
  - repeat split; simpl; auto.
  - apply step_buffers; assumption.
Qed.


Lemma reachable_run props evs st :
  reachable props st -> reachable props (run props evs st).
Proof.
  revert st; induction evs as [|ev evs IH]; intros st H; simpl;
    [exact H | apply IH, reach_step, H].
Qed.




(** ** Properties of the Console, the App and the Editor *)

(** The frame test of [updateLoop]: a frame counts as speech exactly when
    its average volume [sum / data.length] exceeds the threshold 8; an empty
    frame, whose average is NaN, never does. *)
Theorem is_speech_average (data : list Z) :
  is_speech data = true <->
  (data <> [] /\
   (inject_Z SPEECH_THRESHOLD_VOLUME <
      inject_Z (sum_bytes data) / inject_Z (Z.of_nat (length data)))%Q).
Proof.
  unfold is_speech. rewrite Z.ltb_lt. destruct data as [|x l].
  - split; [intros H; compute in H; discriminate H|]. intros [H _]. congruence.
  - remember (x :: l) as d.
    assert (Hn : 0 < Z.of_nat (length d)) by (subst; simpl; lia).
    assert (Hq : (0 < inject_Z (Z.of_nat (length d)))%Q)
      by (rewrite Zlt_Qlt in Hn; exact Hn).
    split.
    + intros H. split; [subst; discriminate|].
      apply Qlt_shift_div_l; [exact Hq|].
      rewrite <- inject_Z_mult, <- Zlt_Qlt. lia.
    + intros [_ H].
      destruct (Z_lt_le_dec (Z.of_nat (length d) * SPEECH_THRESHOLD_VOLUME)
                  (sum_bytes d)) as [Hl|Hl]; [exact Hl|].
      exfalso. apply (Qlt_not_le _ _ H).
      apply Qle_shift_div_r; [exact Hq|].
      rewrite <- inject_Z_mult, <- Zle_Qle. lia.
Qed.


(** No empty chunk is ever buffered, and [processAudio] is never called
    with an empty blob, in any reachable state of the Console. *)
Theorem console_never_sends_empty_audio props st :
  reachable props st ->
  Forall (fun b => (0 < length b)%nat) (chunks st) /\
  Forall (fun b => (0 < length b)%nat) (serviceCalls st).
Proof.
  intros Hr. destruct (reachable_buffers props st Hr) as (H1 & H2 & _).
  split; assumption.
Qed.

(** Every record the Console hands to [onTranscriptionComplete] answers a
    call of its own to [processAudio]: the records, plus the call still
    awaited, never outnumber the calls. *)
Theorem console_records_bounded_by_calls props st :
  reachable props st ->
  (length (emitted st) + pending st <= length (serviceCalls st))%nat.
Proof. intros Hr. apply (reachable_buffers props st Hr). Qed.



(** The prompt's language context tells the settings apart: two settings
    give the same context exactly when they select the same language, and
    Auto-Detect gives the same context as no settings at all. *)
Theorem languageContext_determines_language s1 s2 :
  (languageContext (Some s1) = languageContext (Some s2) <->
   language s1 = language s2) /\
  (languageContext (Some s1) = languageContext None <-> language s1 = AUTO).
Proof.
  destruct s1 as [l1 h1], s2 as [l2 h2]; simpl.
  destruct l1, l2; simpl; split; split; intros H;
    try reflexivity; try discriminate H.
Qed.


(** ** Witnesses *)


Lemma console_never_sends_empty_audio_witness :
  reachable manual_mode
    (run manual_mode [ClickToggle true 0; DataAvailable [1%Z; 2%Z]; DataAvailable [];
                      ClickToggle true 10; RecorderOnStop] initial) /\
  Forall (fun b => (0 < length b)%nat)
    (serviceCalls
       (run manual_mode [ClickToggle true 0; DataAvailable [1%Z; 2%Z]; DataAvailable [];
                         ClickToggle true 10; RecorderOnStop] initial)).
Proof.
  assert (H : reachable manual_mode
    (run manual_mode [ClickToggle true 0; DataAvailable [1%Z; 2%Z]; DataAvailable [];
                      ClickToggle true 10; RecorderOnStop] initial))
    by (apply reachable_run, reach_initial).
  split; [exact H|].
  exact (proj2 (console_never_sends_empty_audio manual_mode _ H)).
Defined.

Lemma console_records_bounded_by_calls_witness :
  reachable manual_mode
    (run manual_mode [ClickToggle true 0; DataAvailable [1%Z; 2%Z]; ClickToggle true 10;
                      RecorderOnStop; ServiceSettles (Resolved namaste_response) 20 20]
       initial) /\
  (length (emitted
     (run manual_mode [ClickToggle true 0; DataAvailable [1%Z; 2%Z]; ClickToggle true 10;
                       RecorderOnStop; ServiceSettles (Resolved namaste_response) 20 20]
        initial)) <=
   length (serviceCalls
     (run manual_mode [ClickToggle true 0; DataAvailable [1%Z; 2%Z]; ClickToggle true 10;
                       RecorderOnStop; ServiceSettles (Resolved namaste_response) 20 20]
        initial)))%nat.
Proof.
  assert (H : reachable manual_mode
    (run manual_mode [ClickToggle true 0; DataAvailable [1%Z; 2%Z]; ClickToggle true 10;
                      RecorderOnStop; ServiceSettles (Resolved namaste_response) 20 20]
       initial)) by (apply reachable_run, reach_initial).
  split; [exact H|].
  pose proof (console_records_bounded_by_calls manual_mode _ H) as Hb. lia.
Defined.


